(** * Schema propagation through task kwargs (tenant_schemas.contrib.celery)

    Shallow embedding of [switch_schema], [TenantTask._add_current_schema],
    [TenantTask.apply_async] and [TenantTask.apply].

    Python dicts are mutable objects that callers and callees share, so the
    kwargs of a task live in a store of dict objects addressed by location;
    the code under study is written in a small state-and-exception monad
    over that store, the database connection and the tenant table. *)

From stdpp Require Import gmap strings list fin_maps pretty.

(** ** Python values and dict objects *)

Inductive pyval : Type :=
  | PNone
  | PBool (b : bool)
  | PInt (z : Z)
  | PStr (s : string).

#[global] Instance pyval_eq_dec : EqDecision pyval.
Proof. solve_decision. Defined.

Definition loc := positive.

(** ** The tenant model and the connection *)

(** A row of the tenant table: primary key and schema name. *)
Record Tenant : Type := mkTenant {
  tenant_pk : nat;
  tenant_schema_name : string
}.

#[global] Instance Tenant_eq_dec : EqDecision Tenant.
Proof. solve_decision. Defined.

(** The ambient [django.db.connection]: the attributes this module reads
    ([schema_name]) and the ones [set_tenant] writes. *)
Record Connection : Type := mkConnection {
  schema_name : string;
  tenant : option Tenant;
  include_public_schema : bool
}.

(** ** What is handed to the task-queue base class *)

Inductive Method : Type := ApplyAsync | Apply.

(** A call delegated to [celery.app.task.Task]: which method, the positional
    arguments, the kwargs object that was passed (by reference) and the
    contents of that object at the instant of the call. *)
Record Delegation : Type := mkDelegation {
  d_method : Method;
  d_args : list pyval;
  d_kwargs : loc;
  d_contents : gmap string pyval
}.

(** ** The world *)

Record World : Type := mkWorld {
  heap : gmap loc (gmap string pyval);
  connection : Connection;
  tenant_table : list Tenant;
  PUBLIC_SCHEMA_NAME : string;
  delegated : list Delegation
}.

Definition set_heap (h : gmap loc (gmap string pyval)) (w : World) : World :=
  {| heap := h; connection := connection w; tenant_table := tenant_table w;
     PUBLIC_SCHEMA_NAME := PUBLIC_SCHEMA_NAME w; delegated := delegated w |}.

Definition set_connection (c : Connection) (w : World) : World :=
  {| heap := heap w; connection := c; tenant_table := tenant_table w;
     PUBLIC_SCHEMA_NAME := PUBLIC_SCHEMA_NAME w; delegated := delegated w |}.

Definition set_delegated (ds : list Delegation) (w : World) : World :=
  {| heap := heap w; connection := connection w; tenant_table := tenant_table w;
     PUBLIC_SCHEMA_NAME := PUBLIC_SCHEMA_NAME w; delegated := ds |}.

(** ** State and exceptions

    A raised exception keeps the state reached so far: what was mutated
    before the raise stays mutated. *)

Inductive exn : Type := DoesNotExist | MultipleObjectsReturned.

Inductive outcome (A : Type) : Type :=
  | Return (a : A)
  | Raise (e : exn).
Arguments Return {A} a.
Arguments Raise {A} e.

Definition M (A : Type) : Type := World -> outcome A * World.

Definition ret {A} (a : A) : M A := fun w => (Return a, w).

Definition bind {A B} (m : M A) (k : A -> M B) : M B :=
  fun w =>
    match m w with
    | (Return a, w') => k a w'
    | (Raise e, w') => (Raise e, w')
    end.

Declare Scope py_scope.
Delimit Scope py_scope with py.
Notation "'let!' x ':=' m 'in' k" := (bind m (fun x => k))
  (at level 10, x name, m at level 100, k at level 200) : py_scope.
Notation "'run!' m 'in' k" := (bind m (fun _ => k))
  (at level 10, m at level 100, k at level 200) : py_scope.
Open Scope py_scope.

Definition raises {A} (r : outcome A * World) : Prop :=
  match fst r with Raise _ => True | Return _ => False end.

(** ** Primitives of the host frameworks *)

(** [d.pop(key, default)] on the dict object at [l]. *)
Definition dict_pop (l : loc) (key : string) (dflt : pyval) : M pyval :=
  fun w =>
    let v := match heap w !! l with
             | Some d => default dflt (d !! key)
             | None => dflt
             end in
    (Return v, set_heap (alter (delete key) l (heap w)) w).

(** [d.setdefault(key, value)] on the dict object at [l]. *)
Definition dict_setdefault (l : loc) (key : string) (v : pyval) : M pyval :=
  fun w =>
    let old := heap w !! l ≫= (.!! key) in
    match old with
    | Some v0 => (Return v0, w)
    | None => (Return v, set_heap (alter (insert key v) l (heap w)) w)
    end.

(** [connection.schema_name]. *)
Definition connection_schema_name : M string :=
  fun w => (Return (schema_name (connection w)), w).

(** [get_public_schema_name()]: the configured name of the public schema. *)
Definition get_public_schema_name : M string :=
  fun w => (Return (PUBLIC_SCHEMA_NAME w), w).

(** The string a lookup on the character column [schema_name] compares
    with (the ORM's [CharField.get_prep_value]): a string as it is, any
    other value through [str()]; [None] stays [None] and selects no row of
    the non-null column. *)
Definition get_prep_value (v : pyval) : option string :=
  match v with
  | PNone => None
  | PBool true => Some "True"
  | PBool false => Some "False"
  | PInt z => Some (pretty z)
  | PStr s => Some s
  end.

(** [get_tenant_model().objects.get(schema_name=v)]: the rows whose schema
    name is the prepared value of [v]; exactly one row is returned, none
    raises [DoesNotExist], several raise [MultipleObjectsReturned]. *)
Definition matching (v : pyval) (t : Tenant) : bool :=
  bool_decide (get_prep_value v = Some (tenant_schema_name t)).

Definition objects_get (v : pyval) : M Tenant :=
  fun w =>
    match filter (fun t => matching v t = true) (tenant_table w) with
    | [] => (Raise DoesNotExist, w)
    | [t] => (Return t, w)
    | _ :: _ :: _ => (Raise MultipleObjectsReturned, w)
    end.

(** Modelled from the spec: [connection.set_tenant(tenant, include_public)]
    lives in the database backend of this package, outside the module under
    study; it switches the active connection's tenant context, so that the
    connection's current schema is the tenant's. *)
Definition set_tenant (t : Tenant) (include_public : bool) : M unit :=
  fun w =>
    (Return tt,
     set_connection {| schema_name := tenant_schema_name t;
                       tenant := Some t;
                       include_public_schema := include_public |} w).

(** The hand-over to the base-class methods of the task queue: the call is
    recorded with the contents of the kwargs object as they are at that
    instant. What the queue does next is its own: [Task.apply_async]
    publishes a message, [Task.apply] goes on to run the task in the calling
    process (see [apply_in_process]). *)
Definition Task_call (m : Method) (args : list pyval) (kwargs : loc) : M unit :=
  fun w =>
    (Return tt,
     set_delegated
       (delegated w ++
        [{| d_method := m; d_args := args; d_kwargs := kwargs;
            d_contents := default ∅ (heap w !! kwargs) |}]) w).

(** ** The module under study *)

Definition RESERVED : string := "_schema_name".

(** [switch_schema(kwargs, **kw)], the [task_prerun] handler. *)
Definition switch_schema (kwargs : loc) : M unit :=
  let! dflt := get_public_schema_name in
  let! schema := dict_pop kwargs RESERVED (PStr dflt) in
  let! t := objects_get schema in
  set_tenant t true.

(** [TenantTask._add_current_schema(self, kwds)]. *)
Definition _add_current_schema (kwds : loc) : M unit :=
  let! s := connection_schema_name in
  run! dict_setdefault kwds RESERVED (PStr s) in
  ret tt.

(** The one dict object created when [def apply_async(..., kwargs={}, ...)]
    is evaluated; every call that omits [kwargs] receives this object. *)
Definition apply_async_default_kwargs : loc := 1%positive.

(** [TenantTask.apply_async(self, args=(), kwargs={}, *arg, **kw)]. *)
Definition apply_async (args : list pyval) (kwargs : option loc) : M unit :=
  let kw := default apply_async_default_kwargs kwargs in
  run! _add_current_schema kw in
  Task_call ApplyAsync args kw.

(** [TenantTask.apply(self, args, kwargs, *arg, **kw)]. *)
Definition apply (args : list pyval) (kwargs : loc) : M unit :=
  run! _add_current_schema kwargs in
  Task_call Apply args kwargs.

(** [Task.apply] runs the task in the calling process: after the hand-over
    it dispatches [task_prerun] on the kwargs object it was given, and the
    receiver this module connects to that signal is [switch_schema]. The
    state reached when the handler has run; the task body gets the kwargs
    unpacked and cannot reach the caller's dict object. *)
Definition apply_in_process (args : list pyval) (kwargs : loc) : M unit :=
  run! apply args kwargs in
  switch_schema kwargs.

(** The two entry points through which a task is handed to the queue. *)
Inductive Entry : Type :=
  | ViaApplyAsync (kwargs : option loc)
  | ViaApply (kwargs : loc).

Definition kwargs_of (e : Entry) : loc :=
  match e with
  | ViaApplyAsync kwargs => default apply_async_default_kwargs kwargs
  | ViaApply kwargs => kwargs
  end.

Definition method_of (e : Entry) : Method :=
  match e with
  | ViaApplyAsync _ => ApplyAsync
  | ViaApply _ => Apply
  end.

Definition enqueue (e : Entry) (args : list pyval) : M unit :=
  match e with
  | ViaApplyAsync kwargs => apply_async args kwargs
  | ViaApply kwargs => apply args kwargs
  end.

(** Contents of a dict after [setdefault('_schema_name', s)]. *)
Definition with_schema (s : string) (d : gmap string pyval) : gmap string pyval :=
  match d !! RESERVED with
  | Some _ => d
  | None => <[RESERVED := PStr s]> d
  end.

(** The value [switch_schema] resolves from a dict: the reserved entry, or
    the public schema name. *)
Definition resolved (public : string) (d : gmap string pyval) : pyval :=
  default (PStr public) (d !! RESERVED).

(** The caller's connection moves to another schema between two calls. *)
Definition connect_to (s : string) : M unit :=
  fun w =>
    (Return tt,
     set_connection {| schema_name := s;
                       tenant := tenant (connection w);
                       include_public_schema :=
                         include_public_schema (connection w) |} w).

(** A run of [apply_async] calls that all omit [kwargs], each made while the
    connection is on the schema paired with it. *)
Fixpoint omitted_calls (cs : list (string * list pyval)) : M unit :=
  match cs with
  | [] => ret tt
  | (s, args) :: cs' =>
      run! connect_to s in
      run! apply_async args None in
      omitted_calls cs'
  end.

(** Schema names are unique in the tenant table. *)
Definition unique_schema_names (w : World) : Prop :=
  NoDup (tenant_schema_name <$> tenant_table w).

(** ** Concrete worlds *)

Definition public_tenant : Tenant := mkTenant 0 "public".
Definition tenant_a : Tenant := mkTenant 1 "tenant_a".
Definition tenant_b : Tenant := mkTenant 2 "tenant_b".

(** A process whose connection is on schema [s], with the default kwargs
    object of [apply_async] still empty and a caller's dict [kw] at
    location 2. *)
Definition process (s : string) (kw : gmap string pyval) : World :=
  {| heap := <[2%positive := kw]> {[apply_async_default_kwargs := ∅]};
     connection := {| schema_name := s; tenant := None;
                      include_public_schema := true |};
     tenant_table := [public_tenant; tenant_a; tenant_b];
     PUBLIC_SCHEMA_NAME := "public";
     delegated := [] |}.

Definition caller_kwargs : gmap string pyval := {["x" := PInt 7]}.

(** The same process over another tenant table. *)
Definition with_tenants (tbl : list Tenant) (w : World) : World :=
  {| heap := heap w; connection := connection w; tenant_table := tbl;
     PUBLIC_SCHEMA_NAME := PUBLIC_SCHEMA_NAME w; delegated := delegated w |}.

Definition tenant_5 : Tenant := mkTenant 3 "5".
Definition tenant_True : Tenant := mkTenant 4 "True".

(** ** Dict objects in the store *)

Section Store.
Context (h : gmap loc (gmap string pyval)) (l : loc) (d : gmap string pyval).
Hypothesis Hl : h !! l = Some d.

Lemma alter_at (f : gmap string pyval -> gmap string pyval) :
  alter f l h = <[l := f d]> h.
Proof using Hl.
  apply map_eq; intros i. rewrite lookup_alter, lookup_insert.
  destruct (decide (l = i)) as [<-|]; [by rewrite Hl | done].
Qed.

Lemma store_same : <[l := d]> h = h.
Proof using Hl. by apply insert_id. Qed.
End Store.

(** ** The tenant lookup *)

Section Lookup.
Implicit Types (tbl : list Tenant) (t : Tenant) (v : pyval).

Lemma matching_iff v t :
  matching v t = true <-> get_prep_value v = Some (tenant_schema_name t).
Proof. unfold matching. by rewrite bool_decide_eq_true. Qed.

Lemma filter_none tbl v :
  filter (fun t => matching v t = true) tbl = [] <->
  ~ exists t, t ∈ tbl /\ get_prep_value v = Some (tenant_schema_name t).
Proof.
  induction tbl as [|a tbl IH].
  - split; [|done]. intros _ (t & Hin & _). by apply elem_of_nil in Hin.
  - destruct (decide (matching v a = true)) as [Ha|Ha].
    + rewrite filter_cons_True by done. split; [done|].
      intros H. exfalso. apply H. exists a.
      split; [apply elem_of_cons; by left | by apply matching_iff].
    + rewrite filter_cons_False by done. rewrite IH. split.
      * intros H (t & Hin & Hv). apply elem_of_cons in Hin as [->|Hin].
        -- by apply Ha, matching_iff.
        -- apply H. by exists t.
      * intros H (t & Hin & Hv). apply H. exists t.
        split; [apply elem_of_cons; by right | done].
Qed.

Lemma filter_unique tbl t :
  NoDup (tenant_schema_name <$> tbl) -> t ∈ tbl ->
  filter (fun t' => matching (PStr (tenant_schema_name t)) t' = true) tbl = [t].
Proof.
  induction tbl as [|a tbl IH]; intros Hnd Hin.
  - by apply elem_of_nil in Hin.
  - rewrite fmap_cons in Hnd. apply NoDup_cons in Hnd as [Ha Hnd].
    apply elem_of_cons in Hin as [->|Hin].
    + rewrite filter_cons_True by by apply matching_iff.
      f_equal. apply filter_none. intros (t' & Hin' & Heq).
      apply Ha. simpl in Heq. injection Heq as ->. by apply list_elem_of_fmap_2.
    + rewrite filter_cons_False; [by apply IH|].
      rewrite matching_iff. simpl. intros Heq. injection Heq as Heq.
      apply Ha. rewrite <- Heq. by apply list_elem_of_fmap_2.
Qed.
End Lookup.

(** ** What each function does to the world *)

Ltac run_py :=
  unfold switch_schema, enqueue, apply_async, apply, _add_current_schema,
    Task_call, set_tenant, objects_get, get_public_schema_name,
    connection_schema_name, dict_setdefault, dict_pop, connect_to, bind, ret;
  simpl.

Section Effects.
Context (w : World) (l : loc) (d : gmap string pyval).
Hypothesis Hl : heap w !! l = Some d.

Lemma add_current_schema_spec :
  let r := _add_current_schema l w in
  fst r = Return tt /\
  heap (snd r) = <[l := with_schema (schema_name (connection w)) d]> (heap w) /\
  connection (snd r) = connection w /\
  tenant_table (snd r) = tenant_table w /\
  PUBLIC_SCHEMA_NAME (snd r) = PUBLIC_SCHEMA_NAME w /\
  delegated (snd r) = delegated w.
Proof using Hl.
  run_py. unfold with_schema. rewrite Hl. simpl.
  destruct (d !! RESERVED) as [v|]; simpl.
  - by rewrite (store_same _ _ _ Hl).
  - by rewrite (alter_at _ _ _ Hl).
Qed.

Lemma switch_schema_spec :
  let r := switch_schema l w in
  heap (snd r) = <[l := delete RESERVED d]> (heap w) /\
  tenant_table (snd r) = tenant_table w /\
  PUBLIC_SCHEMA_NAME (snd r) = PUBLIC_SCHEMA_NAME w /\
  delegated (snd r) = delegated w /\
  match filter (fun t => matching (resolved (PUBLIC_SCHEMA_NAME w) d) t = true)
               (tenant_table w) with
  | [] => fst r = Raise DoesNotExist /\ connection (snd r) = connection w
  | [t] => fst r = Return tt /\
           connection (snd r) =
             {| schema_name := tenant_schema_name t; tenant := Some t;
                include_public_schema := true |}
  | _ :: _ :: _ =>
      fst r = Raise MultipleObjectsReturned /\ connection (snd r) = connection w
  end.
Proof using Hl.
  run_py. unfold resolved. rewrite Hl.
  destruct (filter _ (tenant_table w)) as [|t [|t' ts]]; simpl;
    by rewrite (alter_at _ _ _ Hl).
Qed.
End Effects.

Lemma enqueue_spec (e : Entry) (args : list pyval) (w : World)
    (d : gmap string pyval) :
  heap w !! kwargs_of e = Some d ->
  let r := enqueue e args w in
  let d' := with_schema (schema_name (connection w)) d in
  fst r = Return tt /\
  heap (snd r) = <[kwargs_of e := d']> (heap w) /\
  connection (snd r) = connection w /\
  tenant_table (snd r) = tenant_table w /\
  PUBLIC_SCHEMA_NAME (snd r) = PUBLIC_SCHEMA_NAME w /\
  delegated (snd r) =
    delegated w ++ [{| d_method := method_of e; d_args := args;
                       d_kwargs := kwargs_of e; d_contents := d' |}].
Proof.
  intros Hl.
  pose proof (add_current_schema_spec w (kwargs_of e) d Hl) as H.
  cbv zeta in H. destruct H as (Hr & Hh & Hc & Ht & Hp & Hd).
  assert (Hrun : forall m,
    let r := (run! _add_current_schema (kwargs_of e) in
              Task_call m args (kwargs_of e)) w in
    fst r = Return tt /\
    heap (snd r) = <[kwargs_of e := with_schema (schema_name (connection w)) d]> (heap w) /\
    connection (snd r) = connection w /\
    tenant_table (snd r) = tenant_table w /\
    PUBLIC_SCHEMA_NAME (snd r) = PUBLIC_SCHEMA_NAME w /\
    delegated (snd r) =
      delegated w ++ [{| d_method := m; d_args := args;
                         d_kwargs := kwargs_of e;
                         d_contents := with_schema (schema_name (connection w)) d |}]).
  { intros m. unfold bind at 1.
    destruct (_add_current_schema (kwargs_of e) w) as [[[]|ex] w1];
      simpl in *; [|discriminate].
    rewrite Hh, Hc, Ht, Hp, Hd, lookup_insert_eq. simpl. done. }
  destruct e as [kw|kw]; exact (Hrun _).
Qed.

(** ** Enqueue side *)

(** C3: [apply_async] and [apply] put the connection's current schema name
    under ['_schema_name'] only when the kwargs object has no such key; a
    value the caller already stored there is left as it is. The object that
    reaches the base class is the stored one. *)
Theorem reserved_inserted_only_if_absent (e : Entry) (args : list pyval)
    (w : World) (d : gmap string pyval) :
  heap w !! kwargs_of e = Some d ->
  let w' := snd (enqueue e args w) in
  exists d',
    heap w' !! kwargs_of e = Some d' /\
    (d !! RESERVED = None ->
       d' = <[RESERVED := PStr (schema_name (connection w))]> d) /\
    (forall v, d !! RESERVED = Some v -> d' = d) /\
    (d_contents <$> last (delegated w')) = Some d'.
Proof.
  intros Hl w'. destruct (enqueue_spec e args w d Hl) as (_ & Hh & _ & _ & _ & Hd).
  exists (with_schema (schema_name (connection w)) d). subst w'.
  rewrite Hh, Hd, lookup_insert_eq, last_snoc. unfold with_schema.
  repeat split; [by intros -> | by intros v ->].
Qed.

Lemma reserved_inserted_only_if_absent_witness :
  heap (process "tenant_a" caller_kwargs) !! 2%positive = Some caller_kwargs /\
  heap (snd (apply [] 2%positive (process "tenant_a" caller_kwargs))) !! 2%positive
    = Some (<[RESERVED := PStr "tenant_a"]> caller_kwargs) /\
  heap (snd (apply_async [] (Some 2%positive)
          (process "tenant_a" {[RESERVED := PStr "tenant_b"]}))) !! 2%positive
    = Some {[RESERVED := PStr "tenant_b"]}.
Proof.
  split; [reflexivity|]. split.
  - destruct (reserved_inserted_only_if_absent (ViaApply 2%positive) []
                (process "tenant_a" caller_kwargs) caller_kwargs eq_refl)
      as (d' & Hd' & Habs & _ & _).
    transitivity (Some d'); [exact Hd' | f_equal; apply Habs; reflexivity].
  - destruct (reserved_inserted_only_if_absent (ViaApplyAsync (Some 2%positive)) []
                (process "tenant_a" {[RESERVED := PStr "tenant_b"]})
                {[RESERVED := PStr "tenant_b"]} eq_refl)
      as (d' & Hd' & _ & Hpres & _).
    transitivity (Some d'); [exact Hd' | f_equal].
    apply (Hpres (PStr "tenant_b")). reflexivity.
Defined.

(** C2, as stated, fails: a caller on schema "tenant_a" who passes kwargs
    that already hold ['_schema_name': "tenant_b"] enqueues "tenant_b". *)
Lemma reserved_equals_current_schema_counterexample :
  let w := process "tenant_a" {[RESERVED := PStr "tenant_b"]} in
  schema_name (connection w) = "tenant_a" /\
  (last (delegated (snd (apply_async [] (Some 2%positive) w)))
     ≫= fun msg => d_contents msg !! RESERVED) = Some (PStr "tenant_b") /\
  (last (delegated (snd (apply [] 2%positive w)))
     ≫= fun msg => d_contents msg !! RESERVED) = Some (PStr "tenant_b") /\
  PStr "tenant_b" <> PStr (schema_name (connection w)).
Proof. repeat split; [reflexivity .. | discriminate]. Qed.

(** C2, amended: for every call to [apply_async] or [apply] made while the
    connection's current schema is S, on a kwargs object that does not yet
    hold ['_schema_name'], the entry handed to the queue equals S. *)
Theorem reserved_equals_current_schema_if_absent (e : Entry)
    (args : list pyval) (w : World) (d : gmap string pyval) (S : string) :
  heap w !! kwargs_of e = Some d ->
  d !! RESERVED = None ->
  schema_name (connection w) = S ->
  (last (delegated (snd (enqueue e args w)))
     ≫= fun msg => d_contents msg !! RESERVED) = Some (PStr S).
Proof.
  intros Hl Habs <-.
  destruct (enqueue_spec e args w d Hl) as (_ & _ & _ & _ & _ & Hd).
  rewrite Hd, last_snoc. simpl. unfold with_schema. rewrite Habs.
  apply lookup_insert_eq.
Qed.

Lemma reserved_equals_current_schema_if_absent_witness :
  (last (delegated (snd (apply_async [] None (process "tenant_a" caller_kwargs))))
     ≫= fun msg => d_contents msg !! RESERVED) = Some (PStr "tenant_a").
Proof.
  apply (reserved_equals_current_schema_if_absent (ViaApplyAsync None) []
           (process "tenant_a" caller_kwargs) ∅ "tenant_a");
    reflexivity.
Defined.

(** C8, as stated, fails for [apply]: the task runs in the calling process
    and the prerun handler pops the entry from the caller's own dict, so
    when [apply] returns the dict is as the caller built it, without
    ['_schema_name']. *)
Lemma caller_dict_after_apply_counterexample :
  let w := process "tenant_a" caller_kwargs in
  heap w !! 2%positive = Some caller_kwargs /\
  fst (apply_in_process [] 2%positive w) = Return tt /\
  heap (snd (apply_in_process [] 2%positive w)) !! 2%positive = Some caller_kwargs /\
  caller_kwargs !! RESERVED = None.
Proof. repeat split; reflexivity. Qed.

(** C8, amended: [apply_async] and [apply] do not copy the kwargs they are
    given: the entry is written into the caller's own dict object and that
    same object, holding ['_schema_name'], is what is handed to the base
    class; when [apply_async] returns, the caller's dict holds the entry. *)
Theorem caller_dict_mutated_at_handover (e : Entry) (args : list pyval)
    (w : World) (d : gmap string pyval) :
  heap w !! kwargs_of e = Some d ->
  (exists d',
     heap (snd (_add_current_schema (kwargs_of e) w)) !! kwargs_of e = Some d' /\
     is_Some (d' !! RESERVED) /\
     last (delegated (snd (enqueue e args w))) =
       Some {| d_method := method_of e; d_args := args;
               d_kwargs := kwargs_of e; d_contents := d' |}) /\
  (forall l', l' <> kwargs_of e ->
     heap (snd (_add_current_schema (kwargs_of e) w)) !! l' = heap w !! l') /\
  (forall kw, e = ViaApplyAsync kw ->
     exists d', heap (snd (apply_async args kw w)) !! kwargs_of e = Some d' /\
                is_Some (d' !! RESERVED)).
Proof.
  intros Hl.
  destruct (add_current_schema_spec w _ d Hl) as (_ & Hh0 & _).
  destruct (enqueue_spec e args w d Hl) as (_ & Hh & _ & _ & _ & Hd).
  assert (Hkey : is_Some (with_schema (schema_name (connection w)) d !! RESERVED)).
  { unfold with_schema. destruct (d !! RESERVED) as [v|] eqn:Hv.
    - by rewrite Hv.
    - by rewrite lookup_insert_eq. }
  split; [|split].
  - exists (with_schema (schema_name (connection w)) d).
    rewrite Hh0, Hd, lookup_insert_eq, last_snoc. done.
  - intros l' Hne. by rewrite Hh0, lookup_insert_ne.
  - intros kw ->. exists (with_schema (schema_name (connection w)) d).
    simpl in Hh. rewrite Hh, lookup_insert_eq. done.
Qed.

Lemma caller_dict_mutated_at_handover_witness :
  exists d',
    heap (snd (apply_async [] (Some 2%positive) (process "tenant_a" caller_kwargs)))
      !! 2%positive = Some d' /\
    is_Some (d' !! RESERVED).
Proof.
  exact (proj2 (proj2 (caller_dict_mutated_at_handover
                         (ViaApplyAsync (Some 2%positive)) []
                         (process "tenant_a" caller_kwargs) caller_kwargs eq_refl))
               (Some 2%positive) eq_refl).
Defined.

(** ** The shared default kwargs object *)

Ltac after_connect s w H :=
  change (kwargs_of (ViaApplyAsync None)) with apply_async_default_kwargs in H;
  change (enqueue (ViaApplyAsync None)) with (fun a => apply_async a None) in H;
  change (schema_name (connection (snd (connect_to s w)))) with s in H;
  change (heap (snd (connect_to s w))) with (heap w) in H;
  change (delegated (snd (connect_to s w))) with (delegated w) in H;
  cbv beta in H.

Lemma omitted_calls_cons (s : string) (args : list pyval)
    (cs : list (string * list pyval)) (w : World) (d : gmap string pyval) :
  heap w !! apply_async_default_kwargs = Some d ->
  omitted_calls ((s, args) :: cs) w =
  omitted_calls cs (snd (apply_async args None (snd (connect_to s w)))).
Proof.
  intros Hl. simpl. unfold bind at 1. simpl. unfold bind at 1.
  pose proof (enqueue_spec (ViaApplyAsync None) args (snd (connect_to s w)) d Hl) as H.
  cbv zeta in H. destruct H as (Hr & _). simpl in Hr.
  destruct (apply_async args None _) as [[[]|ex] w2]; simpl in *; [done | discriminate].
Qed.

(** Once the default object holds an entry, every call that omits kwargs
    hands that entry on, whatever schema the connection is on. *)
Lemma omitted_calls_reuse (cs : list (string * list pyval)) :
  forall (w : World) (d : gmap string pyval) (v : pyval),
    heap w !! apply_async_default_kwargs = Some d ->
    d !! RESERVED = Some v ->
    exists ds,
      delegated (snd (omitted_calls cs w)) = delegated w ++ ds /\
      length ds = length cs /\
      Forall (fun msg => d_kwargs msg = apply_async_default_kwargs /\
                         d_contents msg !! RESERVED = Some v) ds.
Proof.
  induction cs as [|[s args] cs IH]; intros w d v Hl Hv.
  - exists []. simpl. by rewrite app_nil_r.
  - rewrite (omitted_calls_cons s args cs w d Hl).
    pose proof (enqueue_spec (ViaApplyAsync None) args (snd (connect_to s w)) d Hl) as H.
    cbv zeta in H. after_connect s w H.
    destruct H as (_ & Hh & _ & _ & _ & Hd).
    set (w2 := snd (apply_async args None (snd (connect_to s w)))) in *.
    assert (Hsame : with_schema s d = d) by (unfold with_schema; by rewrite Hv).
    rewrite Hsame in Hh, Hd.
    assert (Hl2 : heap w2 !! apply_async_default_kwargs = Some d)
      by (rewrite Hh; apply lookup_insert_eq).
    destruct (IH w2 d v Hl2 Hv) as (ds & Hds & Hlen & Hall).
    eexists (_ :: ds). rewrite Hds, Hd, <- app_assoc. simpl.
    split; [reflexivity|]. split; [by rewrite Hlen|].
    constructor; [by split | done].
Qed.

(** C9: the calls to [apply_async] that omit kwargs all receive the one
    default dict object; after the first such call stores schema S in it,
    every later such call hands on the entry for S, not the schema its own
    connection is on at that time. *)
Theorem default_kwargs_keeps_first_schema (w : World) (d : gmap string pyval)
    (s0 : string) (args0 : list pyval) (cs : list (string * list pyval)) :
  heap w !! apply_async_default_kwargs = Some d ->
  d !! RESERVED = None ->
  exists ds,
    delegated (snd (omitted_calls ((s0, args0) :: cs) w)) = delegated w ++ ds /\
    length ds = S (length cs) /\
    Forall (fun msg => d_kwargs msg = apply_async_default_kwargs /\
                       d_contents msg !! RESERVED = Some (PStr s0)) ds.
Proof.
  intros Hl Habs. rewrite (omitted_calls_cons s0 args0 cs w d Hl).
  pose proof (enqueue_spec (ViaApplyAsync None) args0 (snd (connect_to s0 w)) d Hl) as H.
  cbv zeta in H. after_connect s0 w H.
  destruct H as (_ & Hh & _ & _ & _ & Hd).
  set (w1 := snd (apply_async args0 None (snd (connect_to s0 w)))) in *.
  assert (Hfirst : with_schema s0 d !! RESERVED = Some (PStr s0))
    by (unfold with_schema; rewrite Habs; apply lookup_insert_eq).
  assert (Hl1 : heap w1 !! apply_async_default_kwargs = Some (with_schema s0 d))
    by (rewrite Hh; apply lookup_insert_eq).
  destruct (omitted_calls_reuse cs w1 _ _ Hl1 Hfirst) as (ds & Hds & Hlen & Hall).
  eexists (_ :: ds). rewrite Hds, Hd, <- app_assoc. simpl.
  split; [reflexivity|]. split; [by rewrite Hlen|].
  constructor; [by split | done].
Qed.

Lemma default_kwargs_keeps_first_schema_witness :
  (fun msg => d_contents msg !! RESERVED) <$>
    delegated (snd (omitted_calls [("tenant_a", []); ("tenant_b", []); ("public", [])]
                      (process "public" caller_kwargs)))
  = [Some (PStr "tenant_a"); Some (PStr "tenant_a"); Some (PStr "tenant_a")].
Proof.
  destruct (default_kwargs_keeps_first_schema (process "public" caller_kwargs) ∅
              "tenant_a" [] [("tenant_b", []); ("public", [])] eq_refl eq_refl)
    as (ds & Hds & Hlen & Hall).
  rewrite Hds. simpl.
  destruct ds as [|m1 [|m2 [|m3 [|m4 ds]]]]; try discriminate Hlen.
  apply Forall_cons in Hall as [[_ H1] Hall].
  apply Forall_cons in Hall as [[_ H2] Hall].
  apply Forall_cons in Hall as [[_ H3] _].
  simpl. by rewrite H1, H2, H3.
Defined.

(** ** Prerun side *)

(** C4: after [switch_schema] has run on a task's kwargs, ['_schema_name']
    is no longer a key of it, whether or not it was one before (and whether
    or not the handler raised). *)
Theorem reserved_absent_after_prerun (l : loc) (w : World)
    (d : gmap string pyval) :
  heap w !! l = Some d ->
  exists d',
    heap (snd (switch_schema l w)) !! l = Some d' /\ d' !! RESERVED = None.
Proof.
  intros Hl. destruct (switch_schema_spec w l d Hl) as (Hh & _).
  exists (delete RESERVED d). rewrite Hh, lookup_insert_eq.
  split; [done | apply lookup_delete_eq].
Qed.

Lemma reserved_absent_after_prerun_witness :
  exists d',
    heap (snd (switch_schema 2%positive
                 (process "public" (<[RESERVED := PStr "tenant_a"]> caller_kwargs))))
      !! 2%positive = Some d' /\
    d' !! RESERVED = None.
Proof.
  exact (reserved_absent_after_prerun 2%positive
           (process "public" (<[RESERVED := PStr "tenant_a"]> caller_kwargs))
           (<[RESERVED := PStr "tenant_a"]> caller_kwargs) eq_refl).
Defined.

(** C5: when ['_schema_name'] is not a key of kwargs, [switch_schema]
    switches the connection to the tenant named by
    [get_public_schema_name()]. *)
Theorem absent_switches_to_public (l : loc) (w : World)
    (d : gmap string pyval) (t : Tenant) :
  heap w !! l = Some d ->
  d !! RESERVED = None ->
  unique_schema_names w ->
  t ∈ tenant_table w ->
  tenant_schema_name t = PUBLIC_SCHEMA_NAME w ->
  let r := switch_schema l w in
  fst r = Return tt /\
  tenant (connection (snd r)) = Some t /\
  schema_name (connection (snd r)) = PUBLIC_SCHEMA_NAME w.
Proof.
  intros Hl Habs Hnd Hin Hname r.
  destruct (switch_schema_spec w l d Hl) as (_ & _ & _ & _ & Hget).
  unfold resolved in Hget. rewrite Habs in Hget. simpl in Hget.
  rewrite <- Hname, (filter_unique _ _ Hnd Hin) in Hget.
  destruct Hget as [Hr Hc]. subst r. by rewrite Hr, Hc.
Qed.

Lemma absent_switches_to_public_witness :
  let r := switch_schema 2%positive (process "tenant_b" caller_kwargs) in
  fst r = Return tt /\
  tenant (connection (snd r)) = Some public_tenant /\
  schema_name (connection (snd r)) = "public".
Proof.
  apply (absent_switches_to_public 2%positive (process "tenant_b" caller_kwargs)
           caller_kwargs public_tenant); try reflexivity.
  - unfold unique_schema_names. compute_done.
  - compute_done.
Defined.

(** With unique schema names a lookup never finds two rows. *)
Lemma filter_at_most_one (tbl : list Tenant) (v : pyval) (t1 t2 : Tenant)
    (ts : list Tenant) :
  NoDup (tenant_schema_name <$> tbl) ->
  filter (fun t => matching v t = true) tbl <> t1 :: t2 :: ts.
Proof.
  intros Hnd Hf.
  assert (Hsub : (tenant_schema_name <$> (t1 :: t2 :: ts))
                   `sublist_of` (tenant_schema_name <$> tbl)).
  { rewrite <- Hf. apply fmap_sublist, sublist_filter. }
  apply (sublist_NoDup _ _ Hnd) in Hsub.
  assert (H1 : t1 ∈ filter (fun t => matching v t = true) tbl)
    by (rewrite Hf; apply elem_of_cons; by left).
  assert (H2 : t2 ∈ filter (fun t => matching v t = true) tbl)
    by (rewrite Hf; apply elem_of_cons; right; apply elem_of_cons; by left).
  apply list_elem_of_filter in H1 as [H1 _]. apply list_elem_of_filter in H2 as [H2 _].
  apply matching_iff in H1, H2. rewrite H2 in H1. injection H1 as H1.
  rewrite !fmap_cons, H1 in Hsub. apply NoDup_cons in Hsub as [Hnin _].
  apply Hnin, elem_of_cons. by left.
Qed.

(** C6: [switch_schema] raises exactly when no tenant has the resolved
    schema name (a value that is not a string is looked up as the ORM
    prepares it, through [str()]), and what it raises is the lookup's own
    exception, unchanged: nothing is caught, retried or translated. *)
Theorem raises_iff_no_tenant (l : loc) (w : World) (d : gmap string pyval) :
  heap w !! l = Some d ->
  unique_schema_names w ->
  let v := resolved (PUBLIC_SCHEMA_NAME w) d in
  (raises (switch_schema l w) <->
   ~ exists t, t ∈ tenant_table w /\
               get_prep_value v = Some (tenant_schema_name t)) /\
  (forall e, fst (switch_schema l w) = Raise e <-> fst (objects_get v w) = Raise e).
Proof.
  intros Hl Hnd v.
  destruct (switch_schema_spec w l d Hl) as (_ & _ & _ & _ & Hget).
  fold v in Hget. rewrite <- filter_none. unfold raises, objects_get.
  pose proof (fun t1 t2 ts => filter_at_most_one (tenant_table w) v t1 t2 ts Hnd) as Hle.
  destruct (filter _ (tenant_table w)) as [|t [|t' ts]]; simpl.
  - destruct Hget as [-> _]. split; [by split |].
    intros e. split; intros [= <-]; reflexivity.
  - destruct Hget as [-> _]. split; [split; [done | discriminate]|].
    intros e. split; discriminate.
  - by destruct (Hle t t' ts).
Qed.

Lemma raises_iff_no_tenant_witness :
  raises (switch_schema 2%positive
            (process "public" (<[RESERVED := PStr "tenant_z"]> caller_kwargs))) /\
  ~ raises (switch_schema 2%positive
              (process "public" (<[RESERVED := PStr "tenant_a"]> caller_kwargs))) /\
  ~ raises (switch_schema 2%positive
              (with_tenants [public_tenant; tenant_True]
                 (process "public" {[RESERVED := PBool true]}))).
Proof.
  split; [|split].
  - apply (raises_iff_no_tenant 2%positive
             (process "public" (<[RESERVED := PStr "tenant_z"]> caller_kwargs))
             (<[RESERVED := PStr "tenant_z"]> caller_kwargs) eq_refl).
    + unfold unique_schema_names. compute_done.
    + intros (t & Hin & Hv). vm_compute in Hv. simpl in Hin.
      repeat (apply elem_of_cons in Hin as [->|Hin]; [discriminate Hv|]).
      by apply elem_of_nil in Hin.
  - intros Hr.
    apply (raises_iff_no_tenant 2%positive
             (process "public" (<[RESERVED := PStr "tenant_a"]> caller_kwargs))
             (<[RESERVED := PStr "tenant_a"]> caller_kwargs) eq_refl) in Hr.
    + apply Hr. exists tenant_a. split; [compute_done | reflexivity].
    + unfold unique_schema_names. compute_done.
  - intros Hr.
    apply (raises_iff_no_tenant 2%positive
             (with_tenants [public_tenant; tenant_True]
                (process "public" {[RESERVED := PBool true]}))
             {[RESERVED := PBool true]} eq_refl) in Hr.
    + apply Hr. exists tenant_True. split; [compute_done | reflexivity].
    + unfold unique_schema_names. compute_done.
Defined.

(** C10: when the tenant lookup in [switch_schema] raises, the connection is
    as it was (no [set_tenant]), but kwargs is not: ['_schema_name'] has
    already been popped, so a dict that held the key has changed. *)
Theorem failed_lookup_still_pops (l : loc) (w : World) (d : gmap string pyval)
    (e : exn) :
  heap w !! l = Some d ->
  fst (switch_schema l w) = Raise e ->
  let w' := snd (switch_schema l w) in
  connection w' = connection w /\
  heap w' !! l = Some (delete RESERVED d) /\
  (is_Some (d !! RESERVED) -> heap w' !! l <> heap w !! l).
Proof.
  intros Hl He w'. destruct (switch_schema_spec w l d Hl) as (Hh & _ & _ & _ & Hget).
  subst w'. rewrite Hh, lookup_insert_eq, Hl. split; [|split; [done|]].
  - destruct (filter _ (tenant_table w)) as [|t [|t' ts]];
      destruct Hget as [Hr Hc]; [done | congruence | done].
  - intros [v Hv] Heq. injection Heq as Heq.
    rewrite <- Heq, lookup_delete_eq in Hv. discriminate.
Qed.

Lemma failed_lookup_still_pops_witness :
  let w := process "tenant_b" (<[RESERVED := PStr "tenant_z"]> caller_kwargs) in
  let w' := snd (switch_schema 2%positive w) in
  connection w' = connection w /\
  heap w' !! 2%positive = Some (delete RESERVED (<[RESERVED := PStr "tenant_z"]> caller_kwargs)) /\
  (is_Some ((<[RESERVED := PStr "tenant_z"]> caller_kwargs) !! RESERVED) ->
   heap w' !! 2%positive <> heap w !! 2%positive).
Proof.
  exact (failed_lookup_still_pops 2%positive
           (process "tenant_b" (<[RESERVED := PStr "tenant_z"]> caller_kwargs))
           (<[RESERVED := PStr "tenant_z"]> caller_kwargs) DoesNotExist
           eq_refl eq_refl).
Defined.

(** ** Frame and round trip *)

(** C7: [apply_async], [apply] and [switch_schema] touch no key of kwargs
    other than ['_schema_name']: every other key keeps its value (and stays
    absent if it was absent). *)
Theorem only_reserved_key_touched (w : World) (k : string) :
  k <> RESERVED ->
  (forall e args d, heap w !! kwargs_of e = Some d ->
     exists d', heap (snd (enqueue e args w)) !! kwargs_of e = Some d' /\
                d' !! k = d !! k) /\
  (forall l d, heap w !! l = Some d ->
     exists d', heap (snd (switch_schema l w)) !! l = Some d' /\
                d' !! k = d !! k).
Proof.
  intros Hk. split.
  - intros e args d Hl.
    destruct (enqueue_spec e args w d Hl) as (_ & Hh & _).
    exists (with_schema (schema_name (connection w)) d).
    rewrite Hh, lookup_insert_eq. split; [done|]. unfold with_schema.
    destruct (d !! RESERVED); [done|]. by rewrite lookup_insert_ne.
  - intros l d Hl. destruct (switch_schema_spec w l d Hl) as (Hh & _).
    exists (delete RESERVED d). rewrite Hh, lookup_insert_eq.
    split; [done|]. by rewrite lookup_delete_ne.
Qed.

Lemma only_reserved_key_touched_witness :
  (exists d', heap (snd (apply [] 2%positive (process "tenant_a" caller_kwargs)))
                !! 2%positive = Some d' /\
              d' !! "x" = Some (PInt 7)) /\
  (exists d', heap (snd (switch_schema 2%positive (process "tenant_a" caller_kwargs)))
                !! 2%positive = Some d' /\
              d' !! "x" = Some (PInt 7)).
Proof.
  destruct (only_reserved_key_touched (process "tenant_a" caller_kwargs) "x")
    as [Henq Hrun]; [discriminate|].
  split.
  - exact (Henq (ViaApply 2%positive) [] caller_kwargs eq_refl).
  - exact (Hrun 2%positive caller_kwargs eq_refl).
Defined.

(** C1: a task handed over through [apply_async] or [apply] while the
    connection is on "tenant_a", with kwargs that did not hold
    ['_schema_name'], carries kwargs on which [switch_schema] switches the
    executing connection to the tenant whose schema name is "tenant_a": the
    active schema during execution is "tenant_a". *)
Theorem roundtrip_tenant_a (e : Entry) (args : list pyval) (w : World)
    (d : gmap string pyval) (msg : Delegation)
    (worker : World) (l : loc) (t : Tenant) :
  heap w !! kwargs_of e = Some d ->
  d !! RESERVED = None ->
  schema_name (connection w) = "tenant_a" ->
  last (delegated (snd (enqueue e args w))) = Some msg ->
  heap worker !! l = Some (d_contents msg) ->
  unique_schema_names worker ->
  t ∈ tenant_table worker ->
  tenant_schema_name t = "tenant_a" ->
  let r := switch_schema l worker in
  fst r = Return tt /\
  tenant (connection (snd r)) = Some t /\
  schema_name (connection (snd r)) = "tenant_a".
Proof.
  intros Hl Habs Hs Hmsg Hk Hnd Hin Hname r.
  destruct (enqueue_spec e args w d Hl) as (_ & _ & _ & _ & _ & Hd).
  rewrite Hd, last_snoc in Hmsg. injection Hmsg as <-. simpl in Hk.
  destruct (switch_schema_spec worker l _ Hk) as (_ & _ & _ & _ & Hget).
  unfold resolved, with_schema in Hget.
  rewrite Habs, lookup_insert_eq, Hs in Hget. simpl in Hget.
  rewrite <- Hname, (filter_unique _ _ Hnd Hin) in Hget.
  destruct Hget as [Hr Hc]. subst r. by rewrite Hr, Hc.
Qed.

Lemma roundtrip_tenant_a_witness :
  let sent := snd (apply_async [] (Some 2%positive) (process "tenant_a" caller_kwargs)) in
  let worker := process "public" (<[RESERVED := PStr "tenant_a"]> caller_kwargs) in
  (d_contents <$> last (delegated sent)) = heap worker !! 2%positive /\
  fst (switch_schema 2%positive worker) = Return tt /\
  tenant (connection (snd (switch_schema 2%positive worker))) = Some tenant_a /\
  schema_name (connection (snd (switch_schema 2%positive worker))) = "tenant_a".
Proof.
  split; [reflexivity|].
  eapply (roundtrip_tenant_a (ViaApplyAsync (Some 2%positive)) []
            (process "tenant_a" caller_kwargs) caller_kwargs _
            (process "public" (<[RESERVED := PStr "tenant_a"]> caller_kwargs))
            2%positive tenant_a); try reflexivity.
  - unfold unique_schema_names. compute_done.
  - compute_done.
Defined.

(** ** Further properties of the handler and of the two entry points *)

(** A successful lookup of the value resolved from kwargs puts the connection
    on the row found, with the public schema included. *)
Lemma switch_to_named (l : loc) (w : World) (d : gmap string pyval) (t : Tenant) :
  heap w !! l = Some d ->
  unique_schema_names w ->
  t ∈ tenant_table w ->
  PStr (tenant_schema_name t) = resolved (PUBLIC_SCHEMA_NAME w) d ->
  fst (switch_schema l w) = Return tt /\
  connection (snd (switch_schema l w)) =
    {| schema_name := tenant_schema_name t; tenant := Some t;
       include_public_schema := true |}.
Proof.
  intros Hl Hnd Hin Hv.
  destruct (switch_schema_spec w l d Hl) as (_ & _ & _ & _ & Hget).
  by rewrite <- Hv, (filter_unique _ _ Hnd Hin) in Hget.
Qed.

(** X1: the propagation is invisible to the task: when the prerun handler
    has run on the kwargs that were handed over, the dict is the caller's
    dict without ['_schema_name'], and it is exactly the caller's dict when
    the caller had not used that key. *)
Theorem propagation_transparent (e : Entry) (args : list pyval) (w : World)
    (d : gmap string pyval) (msg : Delegation) (worker : World) (l : loc) :
  heap w !! kwargs_of e = Some d ->
  last (delegated (snd (enqueue e args w))) = Some msg ->
  heap worker !! l = Some (d_contents msg) ->
  heap (snd (switch_schema l worker)) !! l = Some (delete RESERVED d) /\
  (d !! RESERVED = None -> heap (snd (switch_schema l worker)) !! l = Some d).
Proof.
  intros Hl Hmsg Hk.
  destruct (enqueue_spec e args w d Hl) as (_ & _ & _ & _ & _ & Hd).
  rewrite Hd, last_snoc in Hmsg. injection Hmsg as <-. simpl in Hk.
  destruct (switch_schema_spec worker l _ Hk) as (Hh & _).
  rewrite Hh, lookup_insert_eq.
  assert (Hdel : delete RESERVED (with_schema (schema_name (connection w)) d)
                 = delete RESERVED d).
  { unfold with_schema. destruct (d !! RESERVED); [done|]. apply delete_insert_eq. }
  rewrite Hdel. split; [done|]. intros Habs. by rewrite delete_id.
Qed.

Lemma propagation_transparent_witness :
  let sent := snd (apply [PInt 1] 2%positive (process "tenant_a" caller_kwargs)) in
  heap (snd (switch_schema 2%positive sent)) !! 2%positive = Some caller_kwargs.
Proof.
  eapply (propagation_transparent (ViaApply 2%positive) [PInt 1]
            (process "tenant_a" caller_kwargs) caller_kwargs _ _ 2%positive);
    reflexivity.
Defined.

(** X2: a ['_schema_name'] the caller put in kwargs decides where the task
    runs: whatever schema the enqueuing connection is on, the handler
    switches the executing connection to the tenant the caller named. *)
Theorem preset_schema_wins (e : Entry) (args : list pyval) (w : World)
    (d : gmap string pyval) (s : string) (msg : Delegation)
    (worker : World) (l : loc) (t : Tenant) :
  heap w !! kwargs_of e = Some d ->
  d !! RESERVED = Some (PStr s) ->
  last (delegated (snd (enqueue e args w))) = Some msg ->
  heap worker !! l = Some (d_contents msg) ->
  unique_schema_names worker ->
  t ∈ tenant_table worker ->
  tenant_schema_name t = s ->
  let r := switch_schema l worker in
  fst r = Return tt /\
  tenant (connection (snd r)) = Some t /\
  schema_name (connection (snd r)) = s.
Proof.
  intros Hl Hpre Hmsg Hk Hnd Hin Hname r.
  destruct (enqueue_spec e args w d Hl) as (_ & _ & _ & _ & _ & Hd).
  rewrite Hd, last_snoc in Hmsg. injection Hmsg as <-. simpl in Hk.
  unfold with_schema in Hk. rewrite Hpre in Hk.
  destruct (switch_to_named l worker d t Hk Hnd Hin) as [Hr Hc].
  { unfold resolved. rewrite Hpre. simpl. by rewrite Hname. }
  subst r. by rewrite Hr, Hc.
Qed.

Lemma preset_schema_wins_witness :
  let sent := snd (apply_async [] (Some 2%positive)
                     (process "tenant_a" {[RESERVED := PStr "tenant_b"]})) in
  let worker := process "public" {[RESERVED := PStr "tenant_b"]} in
  (d_contents <$> last (delegated sent)) = heap worker !! 2%positive /\
  fst (switch_schema 2%positive worker) = Return tt /\
  tenant (connection (snd (switch_schema 2%positive worker))) = Some tenant_b /\
  schema_name (connection (snd (switch_schema 2%positive worker))) = "tenant_b".
Proof.
  split; [reflexivity|].
  eapply (preset_schema_wins (ViaApplyAsync (Some 2%positive)) []
            (process "tenant_a" {[RESERVED := PStr "tenant_b"]})
            {[RESERVED := PStr "tenant_b"]} "tenant_b" _
            (process "public" {[RESERVED := PStr "tenant_b"]})
            2%positive tenant_b); try reflexivity.
  - unfold unique_schema_names. compute_done.
  - compute_done.
Defined.

(** X3: when [switch_schema] returns normally, the connection is on a row of
    the tenant table whose schema name is the value resolved from kwargs, as
    the lookup prepares it; its current schema is that row's, and the public
    schema is included; nothing of the connection's earlier state is left. *)
Theorem success_selects_matching_tenant (l : loc) (w : World)
    (d : gmap string pyval) :
  heap w !! l = Some d ->
  fst (switch_schema l w) = Return tt ->
  exists t,
    t ∈ tenant_table w /\
    get_prep_value (resolved (PUBLIC_SCHEMA_NAME w) d) = Some (tenant_schema_name t) /\
    connection (snd (switch_schema l w)) =
      {| schema_name := tenant_schema_name t; tenant := Some t;
         include_public_schema := true |}.
Proof.
  intros Hl Hok.
  destruct (switch_schema_spec w l d Hl) as (_ & _ & _ & _ & Hget).
  destruct (filter _ (tenant_table w)) as [|t [|t' ts]] eqn:Hf;
    destruct Hget as [Hr Hc]; [congruence | | congruence].
  assert (Hin : t ∈ filter (fun t0 => matching (resolved (PUBLIC_SCHEMA_NAME w) d) t0 = true)
                           (tenant_table w))
    by (rewrite Hf; apply elem_of_cons; by left).
  apply list_elem_of_filter in Hin as [Hm Hin]. apply matching_iff in Hm.
  by exists t.
Qed.

Lemma success_selects_matching_tenant_witness :
  exists t,
    t ∈ [public_tenant; tenant_5] /\
    get_prep_value (PInt 5) = Some (tenant_schema_name t) /\
    connection (snd (switch_schema 2%positive
                       (with_tenants [public_tenant; tenant_5]
                          (process "tenant_a" {[RESERVED := PInt 5]})))) =
      {| schema_name := tenant_schema_name t; tenant := Some t;
         include_public_schema := true |}.
Proof.
  exact (success_selects_matching_tenant 2%positive
           (with_tenants [public_tenant; tenant_5]
              (process "tenant_a" {[RESERVED := PInt 5]}))
           {[RESERVED := PInt 5]} eq_refl eq_refl).
Defined.

(** X4: the handler consumes the entry, so running it a second time on the
    same kwargs object no longer finds it: whatever the first run did, the
    second one switches the connection to the public tenant. *)
Theorem second_prerun_goes_public (l : loc) (w : World)
    (d : gmap string pyval) (t : Tenant) :
  heap w !! l = Some d ->
  unique_schema_names w ->
  t ∈ tenant_table w ->
  tenant_schema_name t = PUBLIC_SCHEMA_NAME w ->
  let r := switch_schema l (snd (switch_schema l w)) in
  fst r = Return tt /\
  tenant (connection (snd r)) = Some t /\
  schema_name (connection (snd r)) = PUBLIC_SCHEMA_NAME w.
Proof.
  intros Hl Hnd Hin Hname r.
  destruct (switch_schema_spec w l d Hl) as (Hh & Ht & Hp & _).
  set (w1 := snd (switch_schema l w)) in *.
  assert (Hl1 : heap w1 !! l = Some (delete RESERVED d))
    by (rewrite Hh; apply lookup_insert_eq).
  destruct (switch_to_named l w1 _ t Hl1) as [Hr Hc].
  - unfold unique_schema_names. by rewrite Ht.
  - by rewrite Ht.
  - unfold resolved. rewrite lookup_delete_eq. simpl. by rewrite Hp, Hname.
  - subst r. by rewrite Hr, Hc, Hname.
Qed.

Lemma second_prerun_goes_public_witness :
  let w := process "tenant_b" {[RESERVED := PStr "tenant_a"]} in
  schema_name (connection (snd (switch_schema 2%positive w))) = "tenant_a" /\
  let r := switch_schema 2%positive (snd (switch_schema 2%positive w)) in
  fst r = Return tt /\
  tenant (connection (snd r)) = Some public_tenant /\
  schema_name (connection (snd r)) = "public".
Proof.
  split; [reflexivity|].
  apply (second_prerun_goes_public 2%positive
           (process "tenant_b" {[RESERVED := PStr "tenant_a"]})
           {[RESERVED := PStr "tenant_a"]} public_tenant); try reflexivity.
  - unfold unique_schema_names. compute_done.
  - compute_done.
Defined.

(** [setdefault] after [setdefault] changes nothing. *)
Lemma with_schema_absorbs (s1 s2 : string) (d : gmap string pyval) :
  with_schema s2 (with_schema s1 d) = with_schema s1 d.
Proof.
  unfold with_schema at 1.
  assert (H : is_Some (with_schema s1 d !! RESERVED)).
  { unfold with_schema. destruct (d !! RESERVED) as [v|] eqn:Hv.
    - by rewrite Hv.
    - by rewrite lookup_insert_eq. }
  by destruct H as [v ->].
Qed.

(** X5: a kwargs dict that has been through [apply_async] once carries the
    schema of that call: handing the same dict object over again, through
    either entry point and from a connection on any schema, passes on
    exactly the contents of the first call. *)
Theorem reused_kwargs_keep_first_schema (kw1 : option loc) (e2 : Entry)
    (args1 args2 : list pyval) (w w2 : World) (d : gmap string pyval) :
  heap w !! kwargs_of (ViaApplyAsync kw1) = Some d ->
  kwargs_of e2 = kwargs_of (ViaApplyAsync kw1) ->
  heap w2 = heap (snd (apply_async args1 kw1 w)) ->
  (d_contents <$> last (delegated (snd (enqueue e2 args2 w2)))) =
  (d_contents <$> last (delegated (snd (apply_async args1 kw1 w)))).
Proof.
  intros Hl Hsame Hheap.
  destruct (enqueue_spec (ViaApplyAsync kw1) args1 w d Hl) as (_ & Hh & _ & _ & _ & Hd).
  change (enqueue (ViaApplyAsync kw1) args1 w) with (apply_async args1 kw1 w) in Hh, Hd.
  assert (Hl2 : heap w2 !! kwargs_of e2
                = Some (with_schema (schema_name (connection w)) d))
    by (rewrite Hheap, Hh, Hsame; apply lookup_insert_eq).
  destruct (enqueue_spec e2 args2 w2 _ Hl2) as (_ & _ & _ & _ & _ & Hd2).
  rewrite Hd, Hd2, !last_snoc. simpl. by rewrite with_schema_absorbs.
Qed.

Lemma reused_kwargs_keep_first_schema_witness :
  let first := snd (apply_async [] (Some 2%positive) (process "tenant_a" caller_kwargs)) in
  let later := snd (connect_to "tenant_b" first) in
  (d_contents <$> last (delegated (snd (apply [] 2%positive later)))) =
  Some (<[RESERVED := PStr "tenant_a"]> caller_kwargs).
Proof.
  etransitivity.
  - apply (reused_kwargs_keep_first_schema (Some 2%positive)
             (ViaApply 2%positive) [] []
             (process "tenant_a" caller_kwargs) _ caller_kwargs);
      reflexivity.
  - reflexivity.
Defined.

(** X6: once the handler has run on a kwargs object the next hand-over of
    that object records the schema the connection is on at that moment,
    whatever the object held before. *)
Theorem prerun_rearms_insertion (e : Entry) (args : list pyval) (w : World)
    (d : gmap string pyval) :
  heap w !! kwargs_of e = Some d ->
  let w1 := snd (switch_schema (kwargs_of e) w) in
  (last (delegated (snd (enqueue e args w1)))
     ≫= fun msg => d_contents msg !! RESERVED)
  = Some (PStr (schema_name (connection w1))).
Proof.
  intros Hl w1. destruct (switch_schema_spec w _ d Hl) as (Hh & _).
  fold w1 in Hh.
  assert (Hl1 : heap w1 !! kwargs_of e = Some (delete RESERVED d))
    by (rewrite Hh; apply lookup_insert_eq).
  destruct (enqueue_spec e args w1 _ Hl1) as (_ & _ & _ & _ & _ & Hd).
  rewrite Hd, last_snoc. simpl. unfold with_schema.
  rewrite lookup_delete_eq. apply lookup_insert_eq.
Qed.

Lemma prerun_rearms_insertion_witness :
  let w := process "tenant_b" {[RESERVED := PStr "tenant_a"]} in
  (last (delegated (snd (apply [] 2%positive (snd (switch_schema 2%positive w)))))
     ≫= fun msg => d_contents msg !! RESERVED)
  = Some (PStr "tenant_a") /\
  let w' := snd (connect_to "tenant_b" (snd (switch_schema 2%positive w))) in
  (last (delegated (snd (apply [] 2%positive
                           (snd (switch_schema 2%positive w')))))
     ≫= fun msg => d_contents msg !! RESERVED)
  = Some (PStr "public").
Proof.
  split.
  - exact (prerun_rearms_insertion (ViaApply 2%positive) []
             (process "tenant_b" {[RESERVED := PStr "tenant_a"]})
             {[RESERVED := PStr "tenant_a"]} eq_refl).
  - exact (prerun_rearms_insertion (ViaApply 2%positive) []
             (snd (connect_to "tenant_b"
                     (snd (switch_schema 2%positive
                             (process "tenant_b" {[RESERVED := PStr "tenant_a"]})))))
             ∅ eq_refl).
Defined.

(** X7: a value present under ['_schema_name'] is never replaced by the
    public default: when no tenant has that value, as the lookup prepares
    it, as schema name, the handler raises [DoesNotExist] and leaves the
    connection where it was, even if a public tenant exists. *)
Theorem unknown_schema_no_fallback (l : loc) (w : World)
    (d : gmap string pyval) (v : pyval) :
  heap w !! l = Some d ->
  d !! RESERVED = Some v ->
  (forall t, t ∈ tenant_table w ->
             get_prep_value v <> Some (tenant_schema_name t)) ->
  fst (switch_schema l w) = Raise DoesNotExist /\
  connection (snd (switch_schema l w)) = connection w.
Proof.
  intros Hl Hv Hnone.
  destruct (switch_schema_spec w l d Hl) as (_ & _ & _ & _ & Hget).
  assert (Hf : filter (fun t => matching (resolved (PUBLIC_SCHEMA_NAME w) d) t = true)
                      (tenant_table w) = []).
  { apply filter_none. unfold resolved. rewrite Hv. simpl.
    intros (t & Hin & Heq). by apply (Hnone t Hin). }
  by rewrite Hf in Hget.
Qed.

Lemma unknown_schema_no_fallback_witness :
  let w := process "tenant_a" {[RESERVED := PNone]} in
  public_tenant ∈ tenant_table w /\
  fst (switch_schema 2%positive w) = Raise DoesNotExist /\
  connection (snd (switch_schema 2%positive w)) = connection w.
Proof.
  split; [compute_done|].
  apply (unknown_schema_no_fallback 2%positive
           (process "tenant_a" {[RESERVED := PNone]}) {[RESERVED := PNone]} PNone);
    [reflexivity | reflexivity |].
  intros t Hin. discriminate.
Defined.
